(** * A shallow embedding of [libstd/result.rs]

    The [Result] type, its combinators and the free helpers [map_vec],
    [map_vec2] and [iter_vec2].

    Closures passed to the combinators are pure Rocq functions; each call of
    a closure is recorded in a log of its arguments (a small writer monad),
    so that statements can say how often and on what the closure ran.
    [fail!] and [assert!] end the task: they are the [Panics] outcome. *)

From Stdlib Require Import List String Arith Lia.
Import ListNotations.
Open Scope string_scope.

(** ** Data model *)

(** [#[deriving(Clone, Eq)] pub enum Result<T, E> { Ok(T), Err(E) }] *)
Inductive Result (T E : Type) : Type :=
| Ok : T -> Result T E
| Err : E -> Result T E.
Arguments Ok {T E} _.
Arguments Err {T E} _.

(** [either::Either<L, R>], the target of [to_either]. *)
Inductive Either (L R : Type) : Type :=
| Left : L -> Either L R
| Right : R -> Either L R.
Arguments Left {L R} _.
Arguments Right {L R} _.

(** How a call ends: it returns a value, or the task fails ([fail!],
    [assert!]) with a message. *)
Inductive Outcome (X : Type) : Type :=
| Returns : X -> Outcome X
| Panics : string -> Outcome X.
Arguments Returns {X} _.
Arguments Panics {X} _.

(** ** Closure calls, recorded *)

(** A computation that may call a closure with arguments of type [A]: its
    value together with the arguments of the calls, in call order. *)
Definition Log (A X : Type) : Type := (X * list A)%type.

Definition ret {A X} (x : X) : Log A X := (x, []).

Definition bind {A X Y} (m : Log A X) (k : X -> Log A Y) : Log A Y :=
  let '(x, l1) := m in
  let '(y, l2) := k x in
  (y, (l1 ++ l2)%list).

(** [op(a)]: one call of the closure [op]. *)
Definition invoke {A X} (op : A -> X) (a : A) : Log A X := (op a, [a]).

(** [op(s, t)]: one call of a two-argument closure. *)
Definition invoke2 {S T X} (op : S -> T -> X) (s : S) (t : T) : Log (S * T) X :=
  (op s t, [(s, t)]).

Notation "x <- m ;; k" := (bind m (fun x => k))
  (at level 61, m at next level, right associativity).

(** ** [impl<T, E: ToStr> Result<T, E>] *)

Section ResultImpl.
Context {T E : Type}.
Variable to_str : E -> string.

Definition to_either (self : Result T E) : Either E T :=
  match self with
  | Ok t => Right t
  | Err e => Left e
  end.

Definition is_ok (self : Result T E) : bool :=
  match self with
  | Ok _ => true
  | Err _ => false
  end.

Definition is_err (self : Result T E) : bool := negb (is_ok self).

(** [fail!("called `Result::unwrap()` on `Err` value: %s", e.to_str())] *)
Definition unwrap (self : Result T E) : Outcome T :=
  match self with
  | Ok t => Returns t
  | Err e => Panics ("called `Result::unwrap()` on `Err` value: " ++ to_str e)
  end.

(** [fail!(reason.to_owned())] *)
Definition expect (self : Result T E) (reason : string) : Outcome T :=
  match self with
  | Ok t => Returns t
  | Err _ => Panics reason
  end.

Definition map_move {U} (self : Result T E) (op : T -> U) : Log T (Result U E) :=
  match self with
  | Ok t => u <- invoke op t ;; ret (Ok u)
  | Err e => ret (Err e)
  end.

Definition chain {U} (self : Result T E) (op : T -> Result U E) : Log T (Result U E) :=
  match self with
  | Ok t => invoke op t
  | Err e => ret (Err e)
  end.

End ResultImpl.

(** ** [impl<T, E: Clone + ToStr> Result<T, E>]: [map] through [&self] *)

Section MapRef.
Context {T E : Type}.
(** [E]'s [Clone::clone]. *)
Variable clone_E : E -> E.

(** [Ok(ref t) => Ok(op(t))], [Err(ref e) => Err(e.clone())]; a reference
    to the payload is the payload itself, and [self] is only read. *)
Definition map {U} (self : Result T E) (op : T -> U) : Log T (Result U E) :=
  match self with
  | Ok t => u <- invoke op t ;; ret (Ok u)
  | Err e => ret (Err (clone_E e))
  end.

End MapRef.

(** ** [#[deriving(Clone, Eq)]] *)

Section Deriving.
Context {T E : Type}.
Variable clone_T : T -> T.
Variable clone_E : E -> E.
Variable eq_T : T -> T -> bool.
Variable eq_E : E -> E -> bool.

(** The derived [Clone::clone]: clone the payload of the same variant. *)
Definition clone_result (self : Result T E) : Result T E :=
  match self with
  | Ok t => Ok (clone_T t)
  | Err e => Err (clone_E e)
  end.

(** The derived [Eq::eq]: same variant and equal payloads. *)
Definition eq_result (self other : Result T E) : bool :=
  match self, other with
  | Ok a, Ok b => eq_T a b
  | Err a, Err b => eq_E a b
  | _, _ => false
  end.

End Deriving.

(** ** [iter]: an [OptionIterator] over the [Ok] payload *)

(** [pub struct OptionIterator<A> { priv opt: Option<A> }] *)
Record OptionIterator (A : Type) : Type := { opt : option A }.
Arguments opt {A} _.

(** [Option::consume]: [OptionIterator { opt: self }] *)
Definition consume {A} (o : option A) : OptionIterator A := {| opt := o |}.

(** [Iterator::next]: [self.opt.take()]; returns the item and the
    iterator after the call. *)
Definition next {A} (it : OptionIterator A) : option A * OptionIterator A :=
  (opt it, {| opt := None |}).

Definition iter {T E} (self : Result T E) : OptionIterator T :=
  consume (match self with
           | Ok t => Some t
           | Err _ => None
           end).

(** The items a [for] loop over [it] sees, calling [next] at most [fuel]
    times. *)
Fixpoint drain {A} (fuel : nat) (it : OptionIterator A) : list A :=
  match fuel with
  | 0 => []
  | S fuel' =>
      match next it with
      | (Some x, it') => x :: drain fuel' it'
      | (None, _) => []
      end
  end.

(** ** Free helpers over vectors *)

Section Helpers.
Context {S T U V : Type}.

(** The loop of [map_vec]: [for t in ts.iter() { match op(t) {
    Ok(v) => vs.push(v), Err(u) => return Err(u) } }]. *)
Fixpoint map_vec_loop (ts : list T) (op : T -> Result V U) (vs : list V)
  : Log T (Result (list V) U) :=
  match ts with
  | [] => ret (Ok vs)
  | t :: ts' =>
      r <- invoke op t ;;
      match r with
      | Ok v => map_vec_loop ts' op (vs ++ [v])
      | Err u => ret (Err u)
      end
  end.

Definition map_vec (ts : list T) (op : T -> Result V U) : Log T (Result (list V) U) :=
  map_vec_loop ts op [].

(** [vec::same_length(xs, ys)]: [xs.len() == ys.len()] *)
Definition same_length {A B} (xs : list A) (ys : list B) : bool :=
  Nat.eqb (List.length xs) (List.length ys).

Definition assert_msg : string := "assertion failed: vec::same_length(ss, ts)".

Definition index_msg : string := "index out of bounds".

(** The [while i < n] loop of [map_vec2], with [k = n - i] iterations left;
    [ss[i]] and [ts[i]] are bounds-checked. *)
Fixpoint map_vec2_loop (ss : list S) (ts : list T) (op : S -> T -> Result V U)
  (i k : nat) (vs : list V) : Log (S * T) (Outcome (Result (list V) U)) :=
  match k with
  | 0 => ret (Returns (Ok vs))
  | Datatypes.S k' =>
      match nth_error ss i, nth_error ts i with
      | Some s, Some t =>
          r <- invoke2 op s t ;;
          match r with
          | Ok v => map_vec2_loop ss ts op (Datatypes.S i) k' (vs ++ [v])
          | Err u => ret (Returns (Err u))
          end
      | _, _ => ret (Panics index_msg)
      end
  end.

Definition map_vec2 (ss : list S) (ts : list T) (op : S -> T -> Result V U)
  : Log (S * T) (Outcome (Result (list V) U)) :=
  if negb (same_length ss ts) then ret (Panics assert_msg)
  else map_vec2_loop ss ts op 0 (List.length ts) [].

(** The [while i < n] loop of [iter_vec2]; no output vector. *)
Fixpoint iter_vec2_loop (ss : list S) (ts : list T) (op : S -> T -> Result unit U)
  (i k : nat) : Log (S * T) (Outcome (Result unit U)) :=
  match k with
  | 0 => ret (Returns (Ok tt))
  | Datatypes.S k' =>
      match nth_error ss i, nth_error ts i with
      | Some s, Some t =>
          r <- invoke2 op s t ;;
          match r with
          | Ok tt => iter_vec2_loop ss ts op (Datatypes.S i) k'
          | Err u => ret (Returns (Err u))
          end
      | _, _ => ret (Panics index_msg)
      end
  end.

Definition iter_vec2 (ss : list S) (ts : list T) (op : S -> T -> Result unit U)
  : Log (S * T) (Outcome (Result unit U)) :=
  if negb (same_length ss ts) then ret (Panics assert_msg)
  else iter_vec2_loop ss ts op 0 (List.length ts).

End Helpers.

(** ** The rest of [impl<T, E: ToStr> Result<T, E>] *)

Section ResultImplErr.
Context {T E : Type}.
Variable to_str : E -> string.

(** [fail!("called `Result::get_ref()` on `Err` value: %s", e.to_str())] *)
Definition get_ref (self : Result T E) : Outcome T :=
  match self with
  | Ok t => Returns t
  | Err e => Panics ("called `Result::get_ref()` on `Err` value: " ++ to_str e)
  end.

Definition iter_err (self : Result T E) : OptionIterator E :=
  consume (match self with
           | Ok _ => None
           | Err t => Some t
           end).

Definition expect_err (self : Result T E) (reason : string) : Outcome E :=
  match self with
  | Err e => Returns e
  | Ok _ => Panics reason
  end.

Definition unwrap_err (self : Result T E) : Outcome E :=
  expect_err self "called `Result::unwrap_err()` on `Ok` value".

Definition map_err_move {F} (self : Result T E) (op : E -> F) : Log E (Result T F) :=
  match self with
  | Ok t => ret (Ok t)
  | Err e => f <- invoke op e ;; ret (Err f)
  end.

Definition chain_err {F} (self : Result T E) (op : E -> Result T F) : Log E (Result T F) :=
  match self with
  | Ok t => ret (Ok t)
  | Err e => invoke op e
  end.

End ResultImplErr.

(** ** [impl<T: Clone, E: ToStr> Result<T, E>]: [map_err] through [&self] *)

Section MapErrRef.
Context {T E : Type}.
(** [T]'s [Clone::clone]. *)
Variable clone_T : T -> T.

Definition map_err {F} (self : Result T E) (op : E -> F) : Log E (Result T F) :=
  match self with
  | Ok t => ret (Ok (clone_T t))
  | Err e => f <- invoke op e ;; ret (Err f)
  end.

End MapErrRef.

(** [map_opt(o_t, op)] *)
Definition map_opt {T U V} (o_t : option T) (op : T -> Result V U)
  : Log T (Result (option V) U) :=
  match o_t with
  | None => ret (Ok None)
  | Some t =>
      r <- invoke op t ;;
      match r with
      | Ok v => ret (Ok (Some v))
      | Err e => ret (Err e)
      end
  end.

(** ** Sample runs *)

Definition op_bad (x : nat) : Result nat string :=
  if Nat.eqb x 2 then Err "bad" else Ok (x * 10).

Example map_vec_bad : map_vec [1; 2; 3] op_bad = (Err "bad", [1; 2]).
Proof. reflexivity. Qed.

Example map_vec_good : map_vec [1; 3] op_bad = (Ok [10; 30], [1; 3]).
Proof. reflexivity. Qed.

Example map_vec2_unequal :
  map_vec2 [1; 2] [3] (fun a b => @Ok nat string (a + b)) = (Panics assert_msg, []).
Proof. reflexivity. Qed.

Example iter_ok_once : drain 5 (iter (@Ok nat string 5)) = [5].
Proof. reflexivity. Qed.

(** * Properties *)

(** ** [chain] *)

(** Claim C1: [Ok(t).chain(f)] is [f(t)] itself, calling [f] once, on [t];
    [Err(e).chain(f)] is [Err(e)] and [f] is not called; in every case [f]
    is called at most once. *)
Theorem chain_ok_err {T U E : Type} (f : T -> Result U E) :
  (forall t, chain (Ok t) f = (f t, [t])) /\
  (forall e, chain (Err e) f = (Err e, [])) /\
  (forall r, List.length (snd (chain r f)) <= 1).
Proof.
  split; [|split]; [reflexivity | reflexivity |].
  intros [t | e]; simpl; lia.
Qed.

(** ** [unwrap] and [expect] *)

(** Claim C4, as stated, fails: the message [unwrap] fails with on [Err]
    is not [called unwrap() on a Failure value: <rendered E>].  Here [E] is
    [string], rendered as itself, and the payload is ["x"]. *)
Lemma unwrap_message_differs :
  unwrap (fun s : string => s) (@Err nat string "x")
  <> Panics ("called unwrap() on a Failure value: " ++ "x").
Proof. simpl. discriminate. Qed.

(** Claim C4 (amended): [unwrap] on [Ok(t)] returns [t]; on [Err(e)] it
    never returns and fails with the message
    [called `Result::unwrap()` on `Err` value: ] followed by [e.to_str()]. *)
Theorem unwrap_ok_err {T E : Type} (to_str : E -> string) :
  (forall t : T, unwrap to_str (Ok t) = Returns t) /\
  (forall e : E,
      unwrap (T := T) to_str (Err e)
      = Panics ("called `Result::unwrap()` on `Err` value: " ++ to_str e) /\
      forall t, unwrap (T := T) to_str (Err e) <> Returns t).
Proof.
  split; [reflexivity |].
  intros e; split; [reflexivity | discriminate].
Qed.

(** Claim C5: [expect(reason)] on [Ok(t)] returns [t]; on [Err(e)] it fails
    with [reason] itself, whatever [e] is (the payload is never rendered). *)
Theorem expect_ok_err {T E : Type} (reason : string) :
  (forall t : T, expect (E := E) (Ok t) reason = Returns t) /\
  (forall e : E, expect (T := T) (Err e) reason = Panics reason) /\
  (forall e1 e2 : E, expect (T := T) (Err e1) reason = expect (Err e2) reason).
Proof. repeat split. Qed.

(** ** [map_move] and [map] *)

(** Claim C6: [Ok(t).map_move(f)] is [Ok(f(t))], calling [f] once on [t];
    [Err(e).map_move(f)] is [Err(e)] with the same [e], and [f] is not
    called. *)
Theorem map_move_ok_err {T U E : Type} (f : T -> U) :
  (forall t, map_move (E := E) (Ok t) f = (Ok (f t), [t])) /\
  (forall e : E, map_move (Err e) f = (Err e, [])).
Proof. split; reflexivity. Qed.

(** The copy [map] works from: the [Ok] payload read through the reference,
    the [Err] payload cloned. *)
Definition copy_for_map {T E} (clone_E : E -> E) (r : Result T E) : Result T E :=
  match r with
  | Ok t => Ok t
  | Err e => Err (clone_E e)
  end.

(** Claim C7: [r.map(op)] (through [&r], [E: Clone]) is [Ok(op(t))] on
    [Ok(t)] and [Err(e.clone())] on [Err(e)]; it only reads [r], and it
    agrees with [map_move] applied to a copy of [r] whose failure payload
    is cloned. *)
Theorem map_ref_agrees {T U E : Type} (clone_E : E -> E) (op : T -> U) :
  (forall t, map clone_E (Ok t) op = (Ok (op t), [t])) /\
  (forall e, map (T := T) clone_E (Err e) op = (Err (clone_E e), [])) /\
  (forall r, map clone_E r op = map_move (copy_for_map clone_E r) op).
Proof.
  split; [reflexivity | split; [reflexivity |]].
  intros [t | e]; reflexivity.
Qed.

(** ** [to_either] *)

(** Claim C8: [to_either] sends [Ok(t)] to [Right(t)] and [Err(e)] to
    [Left(e)]; no other outcome. *)
Theorem to_either_cases {T E : Type} :
  (forall t : T, to_either (E := E) (Ok t) = Right t) /\
  (forall e : E, to_either (T := T) (Err e) = Left e) /\
  (forall r : Result T E,
      (exists t, r = Ok t /\ to_either r = Right t) \/
      (exists e, r = Err e /\ to_either r = Left e)).
Proof.
  split; [reflexivity | split; [reflexivity |]].
  intros [t | e]; [left; exists t | right; exists e]; auto.
Qed.

(** ** [iter] *)

(** Claim C9: [r.iter()] yields exactly one item, [t], when [r] is [Ok(t)],
    and is then exhausted (every later [next] gives [None]); it yields
    nothing when [r] is [Err(_)].  Each call of [iter] builds a new
    iterator from [r], so a second call yields the same items. *)
Theorem iter_items {T E : Type} :
  (forall t : T,
      (exists it', next (iter (E := E) (Ok t)) = (Some t, it') /\
                   forall n, drain n it' = []) /\
      forall n, drain (Datatypes.S n) (iter (E := E) (Ok t)) = [t]) /\
  (forall e : E, forall n, drain n (iter (T := T) (Err e)) = []) /\
  (forall (r : Result T E) n,
      List.length (drain n (iter r)) <= 1 /\
      drain n (iter r) = drain n (iter r)).
Proof.
  assert (Hnone : forall n, drain (A := T) n {| opt := None |} = []).
  { intros [|n]; reflexivity. }
  split; [|split].
  - intros t; split.
    + eexists; split; [reflexivity | exact Hnone].
    + intros n; simpl; rewrite Hnone; reflexivity.
  - intros e n; exact (Hnone n).
  - intros [t | e] n; split; try reflexivity.
    + destruct n; simpl; [lia | rewrite Hnone; simpl; lia].
    + simpl; rewrite Hnone; simpl; lia.
Qed.

(** ** Derived [Clone] and [Eq] *)

(** Claim C10: when cloning a payload gives a payload equal to it, the
    derived [clone] of a [Result] is equal to it under the derived [eq];
    and [eq] is structural: [Ok(a) == Ok(b)] iff [a == b],
    [Err(a) == Err(b)] iff [a == b], and an [Ok] never equals an [Err]. *)
Theorem derived_clone_eq {T E : Type}
  (clone_T : T -> T) (clone_E : E -> E)
  (eq_T : T -> T -> bool) (eq_E : E -> E -> bool)
  (HT : forall t, eq_T (clone_T t) t = true)
  (HE : forall e, eq_E (clone_E e) e = true) :
  (forall r, eq_result eq_T eq_E (clone_result clone_T clone_E r) r = true) /\
  (forall a b, eq_result eq_T eq_E (Ok a) (Ok b) = eq_T a b) /\
  (forall a b, eq_result eq_T eq_E (Err a) (Err b) = eq_E a b) /\
  (forall a b, eq_result eq_T eq_E (Ok a) (Err b) = false /\
               eq_result eq_T eq_E (Err b) (Ok a) = false).
Proof.
  split; [intros [t | e]; simpl; auto |].
  repeat split.
Qed.

Lemma derived_clone_eq_witness :
  eq_result Nat.eqb String.eqb
    (clone_result (fun n : nat => n) (fun s : string => s) (Err "e")) (Err "e")
  = true.
Proof.
  apply (proj1 (derived_clone_eq (fun n : nat => n) (fun s : string => s)
                  Nat.eqb String.eqb Nat.eqb_refl String.eqb_refl)).
Defined.

(** ** [map_vec] *)

Section MapVec.
Context {T U V : Type}.
Variable op : T -> Result V U.

Lemma map_vec_loop_first_err (ts : list T) :
  forall k x u vs,
    nth_error ts k = Some x -> op x = Err u ->
    (forall j y, j < k -> nth_error ts j = Some y -> exists v, op y = Ok v) ->
    map_vec_loop ts op vs = (Err u, firstn (Datatypes.S k) ts).
Proof.
  induction ts as [| t ts IH]; intros k x u vs Hk Hx Hpre.
  - destruct k; discriminate.
  - destruct k as [| k].
    + simpl in Hk; injection Hk as <-.
      simpl; unfold invoke; rewrite Hx; reflexivity.
    + destruct (Hpre 0 t ltac:(lia) eq_refl) as [v Hv].
      simpl; unfold invoke; rewrite Hv.
      rewrite (IH k x u ((vs ++ [v])%list)); [reflexivity | exact Hk | exact Hx |].
      intros j y Hj Hy; apply (Hpre (Datatypes.S j) y); [lia | exact Hy].
Qed.

Lemma map_vec_loop_all_ok (ts : list T) :
  forall vs,
    (forall t, In t ts -> exists v, op t = Ok v) ->
    exists ws, map_vec_loop ts op vs = (Ok ((vs ++ ws)%list), ts) /\
               Forall2 (fun t v => op t = Ok v) ts ws.
Proof.
  induction ts as [| t ts IH]; intros vs Hok.
  - exists []; rewrite app_nil_r; split; [reflexivity | constructor].
  - destruct (Hok t (or_introl eq_refl)) as [v Hv].
    destruct (IH ((vs ++ [v])%list)) as [ws [Hrun Hws]].
    { intros t' Ht'; apply Hok; right; exact Ht'. }
    exists (v :: ws); split.
    + simpl; unfold invoke; rewrite Hv, Hrun, <- app_assoc; reflexivity.
    + constructor; assumption.
Qed.

End MapVec.

(** Claim C2: [map_vec(ts, op)] calls [op] on the elements of [ts] in
    order.  If the first [Err(u)] comes at index [k], the result is
    [Err(u)], [op] was called exactly [k + 1] times, on the first [k + 1]
    elements, and nothing of the output vector is returned.  If every call
    succeeds (so also for an empty [ts], where [op] is never called), the
    result is [Ok(vs)] with [vs] the payloads of [op]'s results in input
    order, as long as [ts], and [op] was called once per element. *)
Theorem map_vec_fail_fast {T U V : Type} (ts : list T) (op : T -> Result V U) :
  (forall k x u,
      nth_error ts k = Some x -> op x = Err u ->
      (forall j y, j < k -> nth_error ts j = Some y -> exists v, op y = Ok v) ->
      map_vec ts op = (Err u, firstn (Datatypes.S k) ts) /\
      List.length (firstn (Datatypes.S k) ts) = Datatypes.S k) /\
  ((forall t, In t ts -> exists v, op t = Ok v) ->
   exists vs, map_vec ts op = (Ok vs, ts) /\
              Forall2 (fun t v => op t = Ok v) ts vs /\
              List.length vs = List.length ts).
Proof.
  split.
  - intros k x u Hk Hx Hpre; split.
    + exact (map_vec_loop_first_err op ts k x u [] Hk Hx Hpre).
    + rewrite length_firstn.
      assert (k < List.length ts) by (apply nth_error_Some; congruence).
      lia.
  - intros Hok.
    destruct (map_vec_loop_all_ok op ts [] Hok) as [vs [Hrun Hvs]].
    exists vs; split; [exact Hrun | split; [exact Hvs |]].
    symmetry; exact (Forall2_length Hvs).
Qed.

(** The sample from the documentation: [op] fails on [2], so on [[1, 2, 3]]
    it runs on [1] and [2] only. *)
Lemma map_vec_fail_fast_witness :
  map_vec [1; 2; 3] op_bad = (Err "bad", [1; 2]).
Proof.
  apply (proj1 (map_vec_fail_fast [1; 2; 3] op_bad) 1 2 "bad");
    [reflexivity | reflexivity |].
  intros j y Hj Hy; destruct j as [| j]; [| lia].
  injection Hy as <-; exists 10; reflexivity.
Defined.

(** ** [map_vec2] and [iter_vec2] *)

(** A run that ends normally. *)
Definition returned {A X} (m : Log A X) : Log A (Outcome X) :=
  let '(x, l) := m in (Returns x, l).

(** The [Result<(), U>] left once the output vector is dropped. *)
Definition drop_output {V U} (r : Result (list V) U) : Result unit U :=
  match r with
  | Ok _ => Ok tt
  | Err u => Err u
  end.

Section MapVec2.
Context {S T U V : Type}.

Lemma map_vec2_loop_shift (op : S -> T -> Result V U) s t ss ts :
  forall k i vs,
    map_vec2_loop (s :: ss) (t :: ts) op (Datatypes.S i) k vs
    = map_vec2_loop ss ts op i k vs.
Proof.
  induction k as [| k IH]; intros i vs; [reflexivity |].
  simpl.
  destruct (nth_error ss i) as [s' |], (nth_error ts i) as [t' |];
    try reflexivity.
  unfold bind, invoke2.
  destruct (op s' t'); [rewrite IH |]; reflexivity.
Qed.

Lemma map_vec2_loop_combine (op : S -> T -> Result V U) :
  forall ss ts vs,
    List.length ss = List.length ts ->
    map_vec2_loop ss ts op 0 (List.length ts) vs
    = returned (map_vec_loop (combine ss ts) (fun p => op (fst p) (snd p)) vs).
Proof.
  induction ss as [| s ss IH]; intros [| t ts] vs Hlen;
    try discriminate; [reflexivity |].
  simpl; unfold bind, invoke2, invoke; simpl.
  destruct (op s t) as [v | u]; [| reflexivity].
  rewrite map_vec2_loop_shift, IH by (simpl in Hlen; lia).
  unfold returned.
  destruct (map_vec_loop (combine ss ts) _ _); reflexivity.
Qed.

Lemma iter_vec2_loop_shift (op : S -> T -> Result unit U) s t ss ts :
  forall k i,
    iter_vec2_loop (s :: ss) (t :: ts) op (Datatypes.S i) k
    = iter_vec2_loop ss ts op i k.
Proof.
  induction k as [| k IH]; intros i; [reflexivity |].
  simpl.
  destruct (nth_error ss i) as [s' |], (nth_error ts i) as [t' |];
    try reflexivity.
  unfold bind, invoke2.
  destruct (op s' t') as [[] |]; [rewrite IH |]; reflexivity.
Qed.

Lemma iter_vec2_loop_combine (op : S -> T -> Result unit U) :
  forall ss ts (vs : list unit),
    List.length ss = List.length ts ->
    iter_vec2_loop ss ts op 0 (List.length ts)
    = let '(r, l) := map_vec_loop (combine ss ts) (fun p => op (fst p) (snd p)) vs
      in (Returns (drop_output r), l).
Proof.
  induction ss as [| s ss IH]; intros [| t ts] vs Hlen;
    try discriminate; [reflexivity |].
  simpl; unfold bind, invoke2, invoke; simpl.
  destruct (op s t) as [[] | u]; [| reflexivity].
  rewrite iter_vec2_loop_shift, (IH ts ((vs ++ [tt])%list)) by (simpl in Hlen; lia).
  destruct (map_vec_loop (combine ss ts) _ _); reflexivity.
Qed.

End MapVec2.

(** Claim C3: if [ss] and [ts] differ in length, [map_vec2] and
    [iter_vec2] fail on their [assert!] before calling [op], and return no
    [Result] at all.  If the lengths agree, neither the assertion nor an
    index check fires: both run exactly as [map_vec] over the pairs
    [(ss[i], ts[i])] in index order (same calls, same fail-fast result),
    [iter_vec2] keeping only [Ok(())] or the first [Err]. *)
Theorem vec2_length_contract {S T U V : Type} (ss : list S) (ts : list T)
  (op : S -> T -> Result V U) (op' : S -> T -> Result unit U) :
  (List.length ss <> List.length ts ->
   map_vec2 ss ts op = (Panics assert_msg, []) /\
   iter_vec2 ss ts op' = (Panics assert_msg, []) /\
   (forall r, fst (map_vec2 ss ts op) <> Returns r) /\
   (forall r, fst (iter_vec2 ss ts op') <> Returns r)) /\
  (List.length ss = List.length ts ->
   map_vec2 ss ts op
   = returned (map_vec (combine ss ts) (fun p => op (fst p) (snd p))) /\
   iter_vec2 ss ts op'
   = let '(r, l) := map_vec (combine ss ts) (fun p => op' (fst p) (snd p))
     in (Returns (drop_output r), l)).
Proof.
  unfold map_vec2, iter_vec2, same_length, map_vec.
  split; intros Hlen.
  - apply Nat.eqb_neq in Hlen; rewrite Hlen; simpl.
    repeat split; discriminate.
  - assert (Heq := Hlen); apply Nat.eqb_eq in Heq; rewrite Heq; simpl.
    split; [apply map_vec2_loop_combine | apply iter_vec2_loop_combine];
      exact Hlen.
Qed.

Lemma vec2_length_contract_witness :
  map_vec2 [1; 2] [3] (fun a b => @Ok nat string (a + b))
  = (Panics assert_msg, []) /\
  map_vec2 [1; 2] [3; 4] (fun a b => @Ok nat string (a + b))
  = (Returns (Ok [4; 6]), [(1, 3); (2, 4)]).
Proof.
  split.
  - apply (proj1 (vec2_length_contract [1; 2] [3]
                    (fun a b => @Ok nat string (a + b))
                    (fun _ _ => @Ok unit string tt))).
    simpl; discriminate.
  - rewrite (proj1 (proj2 (vec2_length_contract [1; 2] [3; 4]
                    (fun a b => @Ok nat string (a + b))
                    (fun _ _ => @Ok unit string tt)) eq_refl)).
    reflexivity.
Defined.

(** * Further properties of [result.rs] *)

(** ** Extraction and predicates *)

(** [get_ref] returns the [Ok] payload and fails on [Err] with a message
    built from [e.to_str()]; it returns normally exactly when [is_ok]. *)
Theorem get_ref_contract {T E : Type} (to_str : E -> string) (r : Result T E) :
  (forall t, r = Ok t -> get_ref to_str r = Returns t) /\
  (forall e, r = Err e ->
     get_ref to_str r
     = Panics ("called `Result::get_ref()` on `Err` value: " ++ to_str e)) /\
  (is_ok r = true <-> exists t, get_ref to_str r = Returns t).
Proof.
  repeat split; intros; subst; try reflexivity.
  - destruct r as [t | e]; [exists t; reflexivity | discriminate].
  - destruct r as [t | e]; [reflexivity |].
    match goal with H : exists _, _ |- _ => destruct H as [? H] end.
    discriminate.
Qed.

(** [is_ok] holds exactly on [Ok] values and [is_err] exactly on [Err]
    values; exactly one of them holds. *)
Theorem is_ok_is_err {T E : Type} (r : Result T E) :
  (is_ok r = true <-> exists t, r = Ok t) /\
  (is_err r = true <-> exists e, r = Err e) /\
  is_err r = negb (is_ok r).
Proof.
  unfold is_err; destruct r as [t | e]; simpl; repeat split;
    try reflexivity; intros H; try discriminate;
    try (eexists; reflexivity);
    destruct H as [? H]; discriminate.
Qed.

(** [unwrap] returns normally exactly on [Ok] values, whatever the
    rendering of [E]. *)
Theorem unwrap_returns_iff_ok {T E : Type} (to_str : E -> string) (r : Result T E) :
  is_ok r = true <-> exists t, unwrap to_str r = Returns t.
Proof.
  destruct r as [t | e]; simpl; split; intros H;
    try (exists t; reflexivity); try reflexivity; try discriminate.
  destruct H as [? H]; discriminate.
Qed.

(** [expect_err(reason)] returns the [Err] payload, and on [Ok(t)] fails
    with [reason] whatever [t] is; [unwrap_err] is [expect_err] with the
    message [called `Result::unwrap_err()` on `Ok` value], so it returns
    normally exactly on [Err] values. *)
Theorem expect_err_unwrap_err {T E : Type} (reason : string) :
  (forall e : E, expect_err (T := T) (Err e) reason = Returns e) /\
  (forall t : T, expect_err (E := E) (Ok t) reason = Panics reason) /\
  (forall t : T, unwrap_err (E := E) (Ok t)
                 = Panics "called `Result::unwrap_err()` on `Ok` value") /\
  (forall r : Result T E, is_err r = true <-> exists e, unwrap_err r = Returns e).
Proof.
  split; [reflexivity | split; [reflexivity | split; [reflexivity |]]].
  intros [t | e]; simpl; split; intros H; try discriminate.
  - destruct H as [? H]; discriminate.
  - exists e; reflexivity.
  - reflexivity.
Qed.

(** ** Iteration *)

(** [iter_err] yields the [Err] payload once and nothing for [Ok]; over
    any result, [iter] and [iter_err] together yield exactly one item. *)
Theorem iter_err_partition {T E : Type} :
  (forall (e : E) n, drain (Datatypes.S n) (iter_err (T := T) (Err e)) = [e]) /\
  (forall (t : T) n, drain n (iter_err (E := E) (Ok t)) = []) /\
  (forall (r : Result T E) n,
      List.length (drain (Datatypes.S n) (iter r))
      + List.length (drain (Datatypes.S n) (iter_err r)) = 1).
Proof.
  assert (Hnone : forall A n, drain (A := A) n {| opt := None |} = []).
  { intros A [|n]; reflexivity. }
  repeat split.
  - intros e n; simpl; rewrite Hnone; reflexivity.
  - intros t n; destruct n; reflexivity.
  - intros [t | e] n; simpl; rewrite !Hnone; reflexivity.
Qed.

(** ** Error-side combinators *)

(** [map_err_move] passes [Ok(t)] through without calling [op], and turns
    [Err(e)] into [Err(op(e))] with one call of [op], on [e]. *)
Theorem map_err_move_ok_err {T E F : Type} (op : E -> F) :
  (forall t : T, map_err_move (Ok t) op = (Ok t, [])) /\
  (forall e, map_err_move (T := T) (Err e) op = (Err (op e), [e])).
Proof. split; reflexivity. Qed.

(** [chain_err] passes [Ok(t)] through without calling [op], and on
    [Err(e)] returns [op(e)] itself, calling [op] once, on [e]. *)
Theorem chain_err_ok_err {T E F : Type} (op : E -> Result T F) :
  (forall t : T, chain_err (Ok t) op = (Ok t, [])) /\
  (forall e, chain_err (Err e) op = (op e, [e])).
Proof. split; reflexivity. Qed.

(** [map_err] through [&self] clones the [Ok] payload and calls [op] only
    on [Err]; it agrees with [map_err_move] on a copy of [self] whose [Ok]
    payload is cloned. *)
Theorem map_err_ref_agrees {T E F : Type} (clone_T : T -> T) (op : E -> F) :
  (forall t, map_err clone_T (Ok t) op = (Ok (clone_T t), [])) /\
  (forall e, map_err clone_T (Err e) op = (Err (op e), [e])) /\
  (forall r, map_err clone_T r op
             = map_err_move (match r with Ok t => Ok (clone_T t) | Err e => Err e end) op).
Proof.
  split; [reflexivity | split; [reflexivity |]].
  intros [t | e]; reflexivity.
Qed.

(** [map_opt] returns [Ok(None)] on [None] without calling [op]; on
    [Some(t)] it calls [op] once, on [t], and wraps its [Ok] payload in
    [Some] or passes its [Err] through. *)
Theorem map_opt_cases {T U V : Type} (op : T -> Result V U) :
  map_opt None op = (Ok None, []) /\
  (forall t v, op t = Ok v -> map_opt (Some t) op = (Ok (Some v), [t])) /\
  (forall t u, op t = Err u -> map_opt (Some t) op = (Err u, [t])).
Proof.
  split; [reflexivity |].
  split; intros t x Hop; simpl; unfold invoke; rewrite Hop; reflexivity.
Qed.

Lemma map_opt_cases_witness :
  map_opt (Some 2) op_bad = (Err "bad", [2]) /\
  map_opt (Some 3) op_bad = (Ok (Some 30), [3]).
Proof.
  split.
  - apply (proj2 (proj2 (map_opt_cases op_bad)) 2 "bad"); reflexivity.
  - apply (proj1 (proj2 (map_opt_cases op_bad)) 3 30); reflexivity.
Defined.

(** [map_opt] on [Some(t)] gives the same calls and outcome as [map_vec]
    on the one-element vector [[t]], with [Some(v)] in place of [[v]]. *)
Theorem map_opt_as_map_vec {T U V : Type} (op : T -> Result V U) (t : T) :
  snd (map_opt (Some t) op) = snd (map_vec [t] op) /\
  fst (map_opt (Some t) op)
  = match fst (map_vec [t] op) with
    | Ok vs => Ok (hd_error vs)
    | Err u => Err u
    end.
Proof.
  unfold map_opt, map_vec; simpl; unfold invoke; simpl.
  destruct (op t); split; reflexivity.
Qed.

(** ** How [chain] and [map_move] compose *)

(** [chain] with [Ok] as continuation gives back the result it started
    from, and chaining [f] then [g] is chaining with [f] followed by [g]
    (the monad laws on the returned results). *)
Theorem chain_laws {T U W E : Type} (f : T -> Result U E) (g : U -> Result W E) :
  (forall r : Result T E, fst (chain r Ok) = r) /\
  (forall r : Result T E,
      fst (chain (fst (chain r f)) g) = fst (chain r (fun t => fst (chain (f t) g)))).
Proof.
  split; intros [t | e]; reflexivity.
Qed.

(** [map_move] with the identity gives back its input, mapping with [f]
    then [g] is mapping with their composition, and [map_move r f] is
    [chain] with [Ok(f(_))], with the same calls. *)
Theorem map_move_laws {T U W E : Type} (f : T -> U) (g : U -> W) :
  (forall r : Result T E, fst (map_move r (fun t => t)) = r) /\
  (forall r : Result T E,
      fst (map_move (fst (map_move r f)) g) = fst (map_move r (fun t => g (f t)))) /\
  (forall r : Result T E, map_move r f = chain r (fun t => Ok (f t))).
Proof.
  split; [| split]; intros [t | e]; reflexivity.
Qed.

(** ** [map_vec] over a concatenation *)

Section MapVecApp.
Context {T U V : Type}.
Variable op : T -> Result V U.

(** What the [vs] already pushed does to the loop: it is prepended to the
    output, and the calls do not depend on it. *)
Lemma map_vec_loop_acc (ts : list T) :
  forall vs,
    map_vec_loop ts op vs
    = (match fst (map_vec ts op) with
       | Ok ws => Ok ((vs ++ ws)%list)
       | Err u => Err u
       end, snd (map_vec ts op)).
Proof.
  unfold map_vec.
  induction ts as [| t ts IH]; intros vs; simpl.
  - rewrite app_nil_r; reflexivity.
  - unfold invoke; simpl.
    destruct (op t) as [v | u]; [| reflexivity].
    rewrite (IH ((vs ++ [v])%list)), (IH [v]); simpl.
    destruct (fst (map_vec_loop ts op [])); [| reflexivity].
    rewrite <- app_assoc; reflexivity.
Qed.

(** A run that ends in [Ok] called [op] once on every element, in order. *)
Lemma map_vec_loop_ok_log (ts : list T) :
  forall vs ws, fst (map_vec_loop ts op vs) = Ok ws -> snd (map_vec_loop ts op vs) = ts.
Proof.
  induction ts as [| t ts IH]; intros vs ws H; [reflexivity |].
  simpl in *; unfold invoke in *; simpl in *.
  destruct (op t) as [v | u]; simpl in H; [| discriminate].
  specialize (IH (vs ++ [v])%list ws).
  destruct (map_vec_loop ts op (vs ++ [v])%list); simpl in *.
  rewrite (IH H); reflexivity.
Qed.

End MapVecApp.

(** [map_vec] over [ts1 ++ ts2]: if the run over [ts1] fails, the run over
    the whole is that run (same error, no call on [ts2]); if it succeeds
    with [vs1], the whole runs on into [ts2] and returns [vs1] followed by
    its outputs, or its first error. *)
Theorem map_vec_app {T U V : Type} (op : T -> Result V U) (ts1 ts2 : list T) :
  (forall u, fst (map_vec ts1 op) = Err u -> map_vec (ts1 ++ ts2) op = map_vec ts1 op) /\
  (forall vs1, fst (map_vec ts1 op) = Ok vs1 ->
     map_vec (ts1 ++ ts2) op
     = (match fst (map_vec ts2 op) with
        | Ok vs2 => Ok ((vs1 ++ vs2)%list)
        | Err u => Err u
        end, (ts1 ++ snd (map_vec ts2 op))%list)).
Proof.
  assert (Hall : forall vs,
    map_vec_loop (ts1 ++ ts2) op vs
    = match map_vec_loop ts1 op vs with
      | (Ok ws, l) => let '(r, l2) := map_vec_loop ts2 op ws in (r, (l ++ l2)%list)
      | (Err u, l) => (Err u, l)
      end).
  { induction ts1 as [| t ts1 IH]; intros vs; simpl.
    - destruct (map_vec_loop ts2 op vs); reflexivity.
    - unfold invoke; simpl.
      destruct (op t) as [v | u]; [| reflexivity].
      rewrite IH.
      destruct (map_vec_loop ts1 op (vs ++ [v])) as [[ws | u] l]; [| reflexivity].
      destruct (map_vec_loop ts2 op ws); reflexivity. }
  unfold map_vec; split.
  - intros u Hu; rewrite Hall.
    destruct (map_vec_loop ts1 op []) as [[ws | u'] l]; simpl in Hu;
      [discriminate | reflexivity].
  - intros vs1 Hvs1; rewrite Hall.
    pose proof (map_vec_loop_ok_log op ts1 [] vs1 Hvs1) as Hlog.
    destruct (map_vec_loop ts1 op []) as [[ws | u'] l]; simpl in Hvs1, Hlog;
      [| discriminate].
    injection Hvs1 as ->; subst l.
    rewrite (map_vec_loop_acc op ts2 vs1); unfold map_vec.
    reflexivity.
Qed.

Lemma map_vec_app_witness :
  map_vec ([1] ++ [2; 3]) op_bad = (Err "bad", [1; 2]).
Proof.
  rewrite (proj2 (map_vec_app op_bad [1] [2; 3]) [10] eq_refl).
  reflexivity.
Defined.

(** ** [iter_vec2] against [map_vec2] *)

(** [Ok(_)] mapped to [Ok(())]. *)
Definition drop_value {V U} (r : Result V U) : Result unit U :=
  match r with
  | Ok _ => Ok tt
  | Err u => Err u
  end.

Section Vec2Agree.
Context {A U V : Type}.
Variable f : A -> Result V U.

Lemma map_vec_loop_drop (xs : list A) :
  forall vs (ws : list unit),
    snd (map_vec_loop xs (fun x => drop_value (f x)) ws) = snd (map_vec_loop xs f vs) /\
    drop_output (fst (map_vec_loop xs (fun x => drop_value (f x)) ws))
    = drop_output (fst (map_vec_loop xs f vs)).
Proof.
  induction xs as [| x xs IH]; intros vs ws; [split; reflexivity |].
  simpl; unfold invoke; simpl.
  destruct (f x) as [v | u]; simpl; [| split; reflexivity].
  destruct (IH (vs ++ [v])%list (ws ++ [tt])%list) as [H1 H2].
  destruct (map_vec_loop xs (fun x => drop_value (f x)) (ws ++ [tt])%list),
           (map_vec_loop xs f (vs ++ [v])%list); simpl in *.
  rewrite H1, H2; split; reflexivity.
Qed.

End Vec2Agree.

(** [iter_vec2] with [op]'s success value dropped makes the same calls as
    [map_vec2] with [op], fails the same way when the lengths differ, and
    returns [Ok(())] exactly when [map_vec2] returns [Ok] and the same
    [Err] otherwise. *)
Theorem iter_vec2_agrees_map_vec2 {S T U V : Type} (ss : list S) (ts : list T)
  (op : S -> T -> Result V U) :
  snd (iter_vec2 ss ts (fun s t => drop_value (op s t))) = snd (map_vec2 ss ts op) /\
  fst (iter_vec2 ss ts (fun s t => drop_value (op s t)))
  = match fst (map_vec2 ss ts op) with
    | Returns r => Returns (drop_output r)
    | Panics m => Panics m
    end.
Proof.
  destruct (Nat.eq_dec (List.length ss) (List.length ts)) as [Hlen | Hlen].
  - unfold iter_vec2, map_vec2, same_length.
    assert (Heq := Hlen); apply Nat.eqb_eq in Heq; rewrite Heq; simpl.
    rewrite (map_vec2_loop_combine op ss ts [] Hlen).
    rewrite (iter_vec2_loop_combine (fun s t => drop_value (op s t)) ss ts [] Hlen).
    destruct (map_vec_loop_drop (fun p => op (fst p) (snd p)) (combine ss ts) [] [])
      as [H1 H2].
    unfold returned.
    destruct (map_vec_loop (combine ss ts) (fun p => drop_value (op (fst p) (snd p))) []),
             (map_vec_loop (combine ss ts) (fun p => op (fst p) (snd p)) []);
      simpl in *.
    rewrite H1, H2; split; reflexivity.
  - unfold iter_vec2, map_vec2, same_length.
    apply Nat.eqb_neq in Hlen; rewrite Hlen; split; reflexivity.
Qed.

(** ** Derived [Eq] and [Clone] *)

(** The derived [eq] is reflexive, symmetric and transitive when the
    payloads' [eq] are. *)
Theorem eq_result_equivalence {T E : Type}
  (eq_T : T -> T -> bool) (eq_E : E -> E -> bool)
  (HT : forall a b, eq_T a b = true <-> a = b)
  (HE : forall a b, eq_E a b = true <-> a = b) :
  forall r1 r2 : Result T E, eq_result eq_T eq_E r1 r2 = true <-> r1 = r2.
Proof.
  intros [a | a] [b | b]; simpl; split; intros H; try discriminate.
  - f_equal; apply HT; exact H.
  - injection H as ->; apply HT; reflexivity.
  - f_equal; apply HE; exact H.
  - injection H as ->; apply HE; reflexivity.
Qed.

Lemma eq_result_equivalence_witness :
  eq_result Nat.eqb String.eqb (@Ok nat string 3) (Ok 3) = true.
Proof.
  apply (eq_result_equivalence Nat.eqb String.eqb Nat.eqb_eq String.eqb_eq).
  reflexivity.
Defined.
